(** * MEGA-PRESS simulation driver (MRS/simulation/gaba_gauss1.c)

    A shallow embedding of the [main] function of [gaba_gauss1.c] and the
    properties of its timing arithmetic, waveform loading, shaped-pulse
    loops, pulse-sequence order and acquisition.

    Conventions of the embedding.
    - C [int] is a 32-bit two's complement integer, [long] and [size_t] are
      64 bits wide (LP64); values are in [Z] and every conversion is written
      out.
    - C [float] and [double] values are exact rationals ([Q]): rounding is not
      modelled, and a decimal literal denotes its decimal value.
    - The GAMMA library ([gamma.h]) is not part of the sources.  Its classes
      and the routines [main] calls are the fields of the record [platform];
      [main] is embedded once, for every platform.
    - Printing to [cout] is not modelled (it includes the loop of lines 48-49
      that prints [rho[0..9]] whatever the pulse length is), nor are the six
      propagators [udelay01] ... [udelay03] of lines 95-102, which are
      computed and never used. *)

Set Warnings "-notation-overridden,-ambiguous-paths,-notation-incompatible-prefix,-deprecated".
From Stdlib Require Import ZArith QArith Qreals Reals Psatz Machin.
From Stdlib.Strings Require Import String Byte.
From HB Require Import structures.
From mathcomp Require Import ssreflect ssrfun ssrbool eqtype ssrnat seq choice fintype bigop.
From mathcomp Require Import fingroup perm ssralg ssrnum matrix sesquilinear spectral algC.

Set Implicit Arguments.
Unset Strict Implicit.
Unset Printing Implicit Defensive.

Delimit Scope R_scope with real.
Close Scope Q_scope.

(* ===================================================================== *)
(** * Part I: definitions                                                 *)
(* ===================================================================== *)

(** ** C integer conversions *)

(** Conversion to [int]: reduction modulo 2^32 into [-2^31, 2^31). *)
Definition int_of (z : Z) : Z := ((z + 2 ^ 31) mod 2 ^ 32 - 2 ^ 31)%Z.

(** Conversion to [size_t]: reduction modulo 2^64. *)
Definition size_t_of (z : Z) : Z := (z mod 2 ^ 64)%Z.

Definition sizeof_float : Z := 4%Z.

(** [malloc] cannot serve a request above [PTRDIFF_MAX]; smaller requests
    are taken to succeed. *)
Definition PTRDIFF_MAX : Z := (2 ^ 63 - 1)%Z.
Definition malloc_fails (bytes : Z) : bool := (PTRDIFF_MAX <? bytes)%Z.

(** ** stdio streams *)

(** A binary input stream: the file's size, its bytes by offset, and the
    current position. *)
Record FILE := Stream { fsize : N; fbyte : Z -> byte; fpos : Z }.

(** [fseek(fid,0,SEEK_END)] *)
Definition fseek_end (fid : FILE) : FILE :=
  Stream (fsize fid) (fbyte fid) (Z.of_N (fsize fid)).

Definition ftell (fid : FILE) : Z := fpos fid.

Definition rewind (fid : FILE) : FILE := Stream (fsize fid) (fbyte fid) 0%Z.

Definition byte_at (fid : FILE) (off : Z) : Z := Z.of_N (Byte.to_N (fbyte fid off)).

(** The 32-bit pattern stored at [off], least significant byte first. *)
Definition word_at (fid : FILE) (off : Z) : Z :=
  Z.lor (byte_at fid off)
    (Z.lor (Z.shiftl (byte_at fid (off + 1)) 8)
       (Z.lor (Z.shiftl (byte_at fid (off + 2)) 16)
              (Z.shiftl (byte_at fid (off + 3)) 24))).

(** Number of whole [float] items between the position and the end. *)
Definition items_left (fid : FILE) : Z :=
  ((Z.of_N (fsize fid) - fpos fid) / sizeof_float)%Z.

(** ** Timing constants and intervals (lines 63-71) *)

(** The definitions below are the exact rational values of the expressions
    of the sources.  The program evaluates the same expressions in binary32
    ([float]) and binary64 arithmetic and rounds after every operation, so
    that its values differ from these in the last digits: an equality
    proved of these definitions is an equality of the formulas, and holds of
    the program's values up to rounding only. *)

Local Open Scope Q_scope.

Definition t_te : Q := 0.068.
Definition t_dwell : Q := 0.000032.
Definition t_12 : Q := 0.006.

Definition t_2g1 (pw : Z) : Q :=
  (t_12 + t_te / 2) / 2 - t_12 - inject_Z pw * t_dwell / 2.
Definition t_g13 (pw : Z) : Q :=
  t_te / 2 - t_2g1 pw - inject_Z pw * t_dwell.
Definition t_3g2 (pw : Z) : Q :=
  (t_te / 2 - t_12) / 2 - inject_Z pw * t_dwell / 2.
Definition t_g2r (pw : Z) : Q :=
  (t_te / 2 - t_12) - t_3g2 pw - inject_Z pw * t_dwell.

(** [T_pulse], the duration of one editing pulse (lines 74 and 77). *)
Definition t_pulse (pw : Z) : Q := inject_Z pw * t_dwell.

Definition angle_factor : Q := 0.24 / 0.24.

(** The flip angle of one waveform sample (lines 122 and 134). *)
Definition pulse_angle (sample : Q) : Q :=
  sample * angle_factor * 180 / 3.14159.

Local Close Scope Q_scope.

(** ** The platform: GAMMA and the float format *)

(** What [main] takes from outside its own source.  [float_of_bits] is the
    value of the [float] whose IEEE-754 binary32 pattern is given; the other
    fields are the GAMMA classes [spin_system], [gen_op] and [complex] and
    the routines of [gamma.h] that [main] calls.  [FID sigma D H td N] is
    the content of the block that [FID(sigma,D,H,td,N,data)] has filled.
    [trace sigma D] is the expectation value of [D] in state [sigma]; [main]
    does not call it, the specification's signal synthesizer does. *)
Record platform := Platform {
  float_of_bits : Z -> Q;
  spin_system : Type;
  gen_op : Type;
  complex : Type;
  offsetShifts : spin_system -> Q -> spin_system;
  sigma_eq : spin_system -> gen_op;
  Ho : spin_system -> gen_op;
  Fm : spin_system -> gen_op;
  prop : gen_op -> Q -> gen_op;
  evolve : gen_op -> gen_op -> gen_op;
  Iypuls : spin_system -> gen_op -> Q -> gen_op;
  Ixypuls : spin_system -> gen_op -> Q -> Q -> gen_op;
  FID : gen_op -> gen_op -> gen_op -> Q -> Z -> seq complex;
  trace : gen_op -> gen_op -> complex
}.

Section Program.

Variable G : platform.

Notation spin_system := (spin_system G).
Notation gen_op := (gen_op G).
Notation complex := (complex G).

(** [fread(rho,sizeof(float),count,fid)]: the items read, in file order, the
    number of items read, and the stream after the call. *)
Definition fread_float (fid : FILE) (count : Z) : seq Q * Z * FILE :=
  let result := Z.min count (items_left fid) in
  ([seq float_of_bits G (word_at fid (fpos fid + sizeof_float * Z.of_nat k))
   | k <- iota 0 (Z.to_nat result)],
   result,
   Stream (fsize fid) (fbyte fid) (fpos fid + sizeof_float * Z.max 0 result)).

(** Lines 35-45: the size of the file, the buffer and the pulse length.
    [None] is the "Memory error" exit. *)
Definition load_waveform (fid : FILE) : option (seq Q * Z) :=
  let fid := fseek_end fid in
  let rf_size := int_of (ftell fid) in
  let fid := rewind fid in
  if malloc_fails (size_t_of rf_size) then None else
  let '(rho, result, fid) :=
    fread_float fid (size_t_of rf_size / sizeof_float) in
  let pw := int_of (size_t_of rf_size / sizeof_float) in
  Some (rho, pw).

(** The body of the loops of lines 119-126 and 131-138, run [todo] times
    from index [i]. *)
Fixpoint mega_press_from (sys : spin_system) (rho : seq Q)
    (udelay_dwell : gen_op) (i todo : nat) (sigma1 : gen_op) : gen_op :=
  match todo with
  | 0 => sigma1
  | todo'.+1 =>
      let angle := (nth 0 rho i * angle_factor * 180 / 3.14159)%Q in
      let sigma1 := Ixypuls sys sigma1 0%Q angle in
      let sigma1 := evolve sigma1 udelay_dwell in
      mega_press_from sys rho udelay_dwell i.+1 todo' sigma1
  end.

(** [for(i=0;i<pw;i++) { ... }] *)
Definition mega_press (sys : spin_system) (rho : seq Q) (pw : Z)
    (udelay_dwell : gen_op) (sigma1 : gen_op) : gen_op :=
  mega_press_from sys rho udelay_dwell 0 (Z.to_nat pw) sigma1.

(** Lines 82-139: from the equilibrium state to the state handed to the
    acquisition. *)
Definition sequence (sys : spin_system) (rho : seq Q) (pw : Z) : gen_op :=
  let sigma0 := sigma_eq sys in
  let H := Ho sys in
  let udelay1 := prop H t_12 in
  let udelay2g1 := prop H (t_2g1 pw) in
  let udelayg13 := prop H (t_g13 pw) in
  let udelay3g2 := prop H (t_3g2 pw) in
  let udelayg2r := prop H (t_g2r pw) in
  let udelay_dwell := prop H t_dwell in
  let sigma1 := Iypuls sys sigma0 90%Q in
  let sigma1 := evolve sigma1 udelay1 in
  let sigma1 := Iypuls sys sigma1 180%Q in
  let sigma1 := evolve sigma1 udelay2g1 in
  let sigma1 := mega_press sys rho pw udelay_dwell sigma1 in
  let sigma1 := evolve sigma1 udelayg13 in
  let sigma1 := Iypuls sys sigma1 180%Q in
  let sigma1 := evolve sigma1 udelay3g2 in
  let sigma1 := mega_press sys rho pw udelay_dwell sigma1 in
  let sigma1 := evolve sigma1 udelayg2r in
  sigma1.

(** Lines 54-143 after the waveform is loaded: the points of [data] after
    the call of [FID]. *)
Definition simulate (sys : spin_system) (offset1 : Z) (rho : seq Q) (pw : Z)
    : seq complex :=
  let sys := offsetShifts sys (inject_Z offset1) in
  let H := Ho sys in
  let detect := Fm sys in
  let sigma1 := sequence sys rho pw in
  FID sigma1 detect H 0.0002%Q 2048%Z.

(** The inputs of a run: [argc], [argv[1]], the value of [atoi(argv[2])],
    the stream [fopen] returns for the waveform file if it returns one, and
    the spin system that [sys.read] loads ([sys.read] is taken to
    succeed). *)
Record inputs := Inputs {
  argc : Z;
  outfile : string;
  offset1 : Z;
  wav : option FILE;
  sys_file : spin_system
}.

(** How a run ends: an [exit] before the simulation, or the return of
    line 153 after [MATLAB(outfile,"test_fid",data)] wrote the signal. *)
Inductive outcome :=
| Exit (status : Z)
| Return (status : Z) (file : string) (name : string) (data : seq complex).

Definition main (a : inputs) : outcome :=
  if negb (argc a =? 3)%Z then Exit 0 else
  match wav a with
  | None => Exit 1
  | Some fid =>
      match load_waveform fid with
      | None => Exit 2
      | Some (rho, pw) =>
          let data := simulate (sys_file a) (offset1 a) rho pw in
          Return 0 (outfile a) "test_fid" data
      end
  end.

(** The signal a run emits, if it emits one. *)
Definition signal_of (o : outcome) : option (seq complex) :=
  match o with
  | Exit _ => None
  | Return _ _ _ data => Some data
  end.

End Program.

Arguments Exit {G} status.

(** ** The specification's components, in the specification's words *)

Section Specification.

Variable G : platform.

Notation spin_system := (spin_system G).
Notation gen_op := (gen_op G).
Notation complex := (complex G).

(** Section 4.3, one step of the Shaped-Pulse Driver: the rotation for the
    sample, then free evolution for one dwell.  The angle is in degrees,
    with the decimal constant of the sources in the place of pi. *)
Definition driver_step (sys : spin_system) (H : gen_op)
    (dwell calibrationFactor phase : Q) (rho : gen_op) (s : Q) : gen_op :=
  let angle := (s * calibrationFactor * 180 / 3.14159)%Q in
  evolve (Ixypuls sys rho phase angle) (prop H dwell).

(** Section 4.3, the Shaped-Pulse Driver: the steps of the samples, in the
    order of the waveform. *)
Definition shaped_pulse_driver (sys : spin_system) (H : gen_op)
    (waveform : seq Q) (dwell calibrationFactor phase : Q)
    (rho : gen_op) : gen_op :=
  foldl (driver_step sys H dwell calibrationFactor phase) rho waveform.

(** Section 4.4, the transitions of the Sequence Orchestrator. *)
Inductive transition :=
| Pulse (angle phase : Q)
| FreeEvolution (interval : Q)
| ShapedPulse (waveform : seq Q) (calibrationFactor : Q).

Definition run_transition (sys : spin_system) (rho : gen_op)
    (t : transition) : gen_op :=
  match t with
  | Pulse angle phase => Ixypuls sys rho phase angle
  | FreeEvolution interval => evolve rho (prop (Ho sys) interval)
  | ShapedPulse waveform calibrationFactor =>
      shaped_pulse_driver sys (Ho sys) waveform t_dwell calibrationFactor
        0%Q rho
  end.

Definition run_transitions (sys : spin_system) (ts : seq transition)
    (rho : gen_op) : gen_op :=
  foldl (run_transition sys) rho ts.

(** Section 4.4, the fixed order of the experiment, for a waveform of [N]
    samples. *)
Definition mega_press_sequence (waveform : seq Q) : seq transition :=
  let N := Z.of_nat (size waveform) in
  [:: Pulse 90%Q 90%Q;
      FreeEvolution t_12;
      Pulse 180%Q 90%Q;
      FreeEvolution (t_2g1 N);
      ShapedPulse waveform angle_factor;
      FreeEvolution (t_g13 N);
      Pulse 180%Q 90%Q;
      FreeEvolution (t_3g2 N);
      ShapedPulse waveform angle_factor;
      FreeEvolution (t_g2r N)].

(** Modelled from the spec: GAMMA's [FID] routine, of which only the call of
    line 143 is in the sources.  After section 4.5: for each of the [M]
    samples, first record the expectation value of the detection operator,
    then evolve the state by one acquisition dwell. *)
Fixpoint synthesize (rho detectionOperator U : gen_op) (M : nat)
    : seq complex :=
  match M with
  | 0 => [::]
  | M'.+1 =>
      trace rho detectionOperator
        :: synthesize (evolve rho U) detectionOperator U M'
  end.

Definition signal_synthesizer (rho H detectionOperator : gen_op)
    (dwell : Q) (M : nat) : seq complex :=
  synthesize rho detectionOperator (prop H dwell) M.

(** The platform's [FID] is the specification's Signal Synthesizer. *)
Definition FID_as_specified : Prop :=
  forall (sigma D H : gen_op) (td : Q) (N : Z),
    FID sigma D H td N = signal_synthesizer sigma H D td (Z.to_nat N).

(** GAMMA's y pulse is the pulse at phase 90 degrees. *)
Definition Iypuls_is_phase_90 : Prop :=
  forall (sys : spin_system) (sigma : gen_op) (beta : Q),
    Iypuls sys sigma beta = Ixypuls sys sigma 90%Q beta.

End Specification.

(** Section 4.3, the flip angle as the specification writes it, with the
    real number pi. *)
Definition spec_angle (s calibrationFactor : Q) : R :=
  (Q2R s * Q2R calibrationFactor * (180 / PI))%real.

(** Files that hold the same bytes. *)
Definition same_content (f g : FILE) : Prop :=
  fsize f = fsize g /\
  forall off, (0 <= off < Z.of_N (fsize f))%Z -> fbyte f off = fbyte g off.

Definition same_file (f g : option FILE) : Prop :=
  match f, g with
  | None, None => True
  | Some f, Some g => same_content f g
  | _, _ => False
  end.

(** ** The Propagator Engine on matrices *)

Section PropagatorEngine.

Local Open Scope ring_scope.
Local Open Scope sesquilinear_scope.

Variable C : numClosedFieldType.
Variable n : nat.

(** Modelled from the spec: GAMMA's [evolve], of which only the calls of
    lines 114-139 are in the sources.  After section 4.2, [apply(U, rho)] is
    [U * rho * U^dagger], with the conjugate transpose. *)
Definition apply (U rho : 'M[C]_n) : 'M[C]_n := U *m rho *m U^t*.

(** Modelled from the spec: GAMMA's [trace], which the sources do not call.
    After section 4.2, [expectationValue(rho, O)] is [trace(rho * O)]. *)
Definition expectationValue (rho O : 'M[C]_n) : C := \tr (rho *m O).

Definition unitary (U : 'M[C]_n) : Prop := U *m U^t* = 1%:M.

Definition hermitian (A : 'M[C]_n) : Prop := A^t* = A.

End PropagatorEngine.

(** ** A platform of matrices *)

(** GAMMA as the specification describes it, on square complex matrices:
    every change of the state is [apply] with a propagator or a rotation
    operator, and the signal is made of [expectationValue]s.  How the
    operators of a spin system, the propagators and the rotation operators
    are computed is left open. *)
Section MatrixPlatform.

Variable C : numClosedFieldType.
Variable n : nat.
Variable decode : Z -> Q.
Variable system : Type.
Variable shift : system -> Q -> system.
Variables equilibrium hamiltonian detection : system -> 'M[C]_n.

(** [freePrecessionPropagator(H, duration)] *)
Variable propagator : 'M[C]_n -> Q -> 'M[C]_n.

(** [rotationOperator(sys, angleDegrees, phaseDegrees)] *)
Variable rotation : system -> Q -> Q -> 'M[C]_n.

(** Modelled from the spec: GAMMA's [FID] routine on matrices, after
    section 4.5, with [apply] and [expectationValue] of section 4.2. *)
Fixpoint matrix_FID (sigma D U : 'M[C]_n) (N : nat) : seq C :=
  match N with
  | 0 => [::]
  | N'.+1 => expectationValue sigma D :: matrix_FID (apply U sigma) D U N'
  end.

(** Modelled from the spec: the GAMMA routines that [main] calls, none of
    which is in the sources, after sections 4.1, 4.2 and 4.5: a pulse applies
    the rotation operator of its angle and phase, free evolution applies a
    propagator. *)
Definition matrix_platform : platform :=
  {| float_of_bits := decode;
     spin_system := system;
     gen_op := 'M[C]_n;
     complex := C;
     offsetShifts := shift;
     sigma_eq := equilibrium;
     Ho := hamiltonian;
     Fm := detection;
     prop := propagator;
     evolve := fun sigma U => apply U sigma;
     Iypuls := fun sys sigma beta => apply (rotation sys beta 90%Q) sigma;
     Ixypuls := fun sys sigma phi beta => apply (rotation sys beta phi) sigma;
     FID := fun sigma D H td N =>
              matrix_FID sigma D (propagator H td) (Z.to_nat N);
     trace := @expectationValue C n |}.

End MatrixPlatform.

(** The exchange of the two basis states of one spin, over the algebraic
    numbers, and the projector on the first basis state. *)
Definition exchange : 'M[algC]_2 := perm_mx (tperm ord0 ord_max).

Definition projector : 'M[algC]_2 := delta_mx ord0 ord0.

(** ** A symbolic platform *)

(** Operators as the terms that build them: every call of a GAMMA routine
    is recorded with its arguments.  A spin system is its frequency shift. *)
Inductive sym_op :=
| Equilibrium (shift : Q)
| Hamiltonian (shift : Q)
| Detection (shift : Q)
| Propagator (H : sym_op) (t : Q)
| Evolved (sigma U : sym_op)
| Pulsed (sigma : sym_op) (phase angle : Q).

Fixpoint sym_FID (sigma D U : sym_op) (N : nat) : seq (sym_op * sym_op) :=
  match N with
  | 0 => [::]
  | N'.+1 => (sigma, D) :: sym_FID (Evolved sigma U) D U N'
  end.

(** The value of a finite IEEE-754 binary32 pattern. *)
Definition binary32_value (w : Z) : Q :=
  let e := Z.land (Z.shiftr w 23) 255 in
  let m := Z.land w (2 ^ 23 - 1) in
  let magnitude :=
    if (e =? 0)%Z then (inject_Z m * Qpower 2 (-149))%Q
    else (inject_Z (2 ^ 23 + m) * Qpower 2 (e - 150))%Q in
  if Z.testbit w 31 then Qopp magnitude else magnitude.

Definition symbolic : platform :=
  {| float_of_bits := binary32_value;
     spin_system := Q;
     gen_op := sym_op;
     complex := sym_op * sym_op;
     offsetShifts := Qplus;
     sigma_eq := Equilibrium;
     Ho := Hamiltonian;
     Fm := Detection;
     prop := Propagator;
     evolve := Evolved;
     Iypuls := fun _ sigma beta => Pulsed sigma 90%Q beta;
     Ixypuls := fun _ sigma phi beta => Pulsed sigma phi beta;
     FID := fun sigma D H td N =>
              sym_FID sigma D (Propagator H td) (Z.to_nat N);
     trace := fun sigma D => (sigma, D) |}.

(** A stream on the bytes of a list. *)
Definition file_of_bytes (bs : seq byte) : FILE :=
  Stream (N.of_nat (size bs)) (fun off => nth x00 bs (Z.to_nat off)) 0%Z.

(** Two samples, 1.0 and -0.5, and two trailing bytes. *)
Definition two_samples : FILE :=
  file_of_bytes [:: x00; x00; x80; x3f; x00; x00; x00; xbf; x01; x02].

(** A file of 2^32 + 8 zero bytes. *)
Definition huge_file : FILE :=
  Stream (2 ^ 32 + 8)%num (fun _ => x00) 0%Z.

(** ** The buffer and the loops that read it *)

(** Line 36: the [int] that receives the size of the file. *)
Definition rf_size_of (fid : FILE) : Z := int_of (ftell (fseek_end fid)).

(** [rho[i]] lies inside a block of [bytes] bytes when its four bytes do. *)
Definition in_buffer (bytes : Z) (i : Z) : bool :=
  (0 <=? i)%Z && (sizeof_float * (i + 1) <=? bytes)%Z.

(** The indices that [for(i=0;i<n;i++)] reads in [rho]. *)
Definition loop_reads (n : Z) : seq Z :=
  [seq Z.of_nat i | i <- iota 0 (Z.to_nat n)].

(** Lines 48-49: [for(i=0;i<10;i++) cout<<rho[i]] reads inside the block
    that [malloc(rf_size)] returned. *)
Definition head_reads_in_buffer (fid : FILE) : bool :=
  all (in_buffer (size_t_of (rf_size_of fid))) (loop_reads 10).

(** Lines 119-126 and 131-138: the loops over [i < pw] read inside the
    block. *)
Definition pulse_reads_in_buffer (fid : FILE) (pw : Z) : bool :=
  all (in_buffer (size_t_of (rf_size_of fid))) (loop_reads pw).

(** ** Measures of a symbolic state *)



Fixpoint elapsed (s : sym_op) : Q :=
  match s with
  | Pulsed sigma _ _ => elapsed sigma
  | Evolved sigma (Propagator _ t) => (elapsed sigma + t)%Q
  | Evolved sigma _ => elapsed sigma
  | _ => 0%Q
  end.

(** A state of the spin system with shift [x]: the equilibrium operator,
    pulsed, and evolved by propagators of the system's Hamiltonian. *)
Fixpoint state_of (x : Q) (s : sym_op) : Prop :=
  match s with
  | Equilibrium y => y = x
  | Pulsed sigma _ _ => state_of x sigma
  | Evolved sigma (Propagator (Hamiltonian y) _) => y = x /\ state_of x sigma
  | _ => False
  end.

(** The four zero samples of a file of sixteen zero bytes, and the first
    eight bytes of [two_samples]. *)
Definition four_zero_samples : FILE := file_of_bytes (nseq 16 x00).

Definition two_samples_only : FILE :=
  file_of_bytes [:: x00; x00; x80; x3f; x00; x00; x00; xbf].

(* ===================================================================== *)
(** * Part II: properties                                                 *)
(* ===================================================================== *)

(** ** Timing of the sequence *)

Section Timing.

Local Open Scope Q_scope.

(** The two halves of the echo: the intervals around the first editing
    pulse fill [t_te / 2], those around the second fill [t_te / 2 - t_12]. *)
Lemma first_half_closure (pw : Z) :
  t_2g1 pw + t_pulse pw + t_g13 pw == t_te / 2.
Proof. rewrite /t_g13 /t_pulse; field. Qed.

Lemma second_half_closure (pw : Z) :
  t_3g2 pw + t_pulse pw + t_g2r pw == t_te / 2 - t_12.
Proof. rewrite /t_g2r /t_pulse; field. Qed.

(** For every pulse length, the delays and the two pulses after the
    excitation add up to the echo time, with [t_12] counted once. *)
Lemma echo_time_closure (pw : Z) :
  t_2g1 pw + t_g13 pw + t_3g2 pw + t_g2r pw
    + t_12 + 2 * inject_Z pw * t_dwell == t_te.
Proof. rewrite /t_g2r /t_g13; field. Qed.

(** The closed forms of the four intervals. *)
Lemma t_2g1_closed (pw : Z) : t_2g1 pw == 0.014 - inject_Z pw * 0.000016.
Proof. rewrite /t_2g1 /t_12 /t_te /t_dwell; field. Qed.

Lemma t_g13_closed (pw : Z) : t_g13 pw == 0.020 - inject_Z pw * 0.000016.
Proof. rewrite /t_g13 /t_2g1 /t_12 /t_te /t_dwell; field. Qed.

Lemma t_3g2_closed (pw : Z) : t_3g2 pw == 0.014 - inject_Z pw * 0.000016.
Proof. rewrite /t_3g2 /t_12 /t_te /t_dwell; field. Qed.

Lemma t_g2r_closed (pw : Z) : t_g2r pw == 0.014 - inject_Z pw * 0.000016.
Proof. rewrite /t_g2r /t_3g2 /t_12 /t_te /t_dwell; field. Qed.

(** The four intervals are all non-negative exactly for pulses of at most
    875 samples. *)
Lemma intervals_nonneg_iff (pw : Z) :
  (0 <= t_2g1 pw /\ 0 <= t_g13 pw /\ 0 <= t_3g2 pw /\ 0 <= t_g2r pw)
  <-> (pw <= 875)%Z.
Proof.
rewrite t_2g1_closed t_g13_closed t_3g2_closed t_g2r_closed.
have <- : (inject_Z pw <= inject_Z 875) <-> (pw <= 875)%Z by rewrite Zle_Qle.
have -> : inject_Z 875 == 875 by [].
move: (inject_Z pw) => x.
split; first by case=> H1 _; lra.
by move=> H; repeat split; lra.
Qed.

(** Above 875 samples the first delay is negative; [sequence] passes it to
    [prop] all the same. *)
Lemma t_2g1_negative (pw : Z) : (875 < pw)%Z -> t_2g1 pw < 0.
Proof.
rewrite t_2g1_closed => /Z.le_succ_l; rewrite Zle_Qle.
have -> : inject_Z (Z.succ 875) == 876 by [].
by move: (inject_Z pw) => x; lra.
Qed.

(** C1, as the specification states it, fails for the four-sample
    scenario: with [2 * t_12] the sum is 0.074, not the echo time 0.068. *)
Lemma closure_with_twice_t12_fails :
  ~ (0 <= t_2g1 4 /\ 0 <= t_g13 4 /\ 0 <= t_3g2 4 /\ 0 <= t_g2r 4 /\
     t_2g1 4 + t_g13 4 + t_3g2 4 + t_g2r 4
       + 2 * t_12 + 2 * inject_Z 4 * t_dwell == t_te).
Proof. by move=> [_ [_ [_ [_]]]]; vm_compute. Qed.

(** C1, amended: for the four-sample scenario (echo time 0.068, [t_12]
    0.006, dwell 32e-6) each of the four intervals is non-negative, and
    their sum plus [t_12], counted once, plus twice the pulse duration
    equals the echo time, in exact rational arithmetic. *)
Theorem refocusing_closure :
  0 <= t_2g1 4 /\ 0 <= t_g13 4 /\ 0 <= t_3g2 4 /\ 0 <= t_g2r 4 /\
  t_2g1 4 + t_g13 4 + t_3g2 4 + t_g2r 4
    + t_12 + 2 * inject_Z 4 * t_dwell == t_te.
Proof.
have [H1 [H2 [H3 H4]]] : 0 <= t_2g1 4 /\ 0 <= t_g13 4 /\ 0 <= t_3g2 4 /\ 0 <= t_g2r 4.
  by apply/intervals_nonneg_iff.
by do 4![split=> //]; apply: echo_time_closure.
Qed.

(** The value of the sum as the specification writes it. *)
Lemma sum_with_twice_t12 (pw : Z) :
  t_2g1 pw + t_g13 pw + t_3g2 pw + t_g2r pw
    + 2 * t_12 + 2 * inject_Z pw * t_dwell == t_te + t_12.
Proof. rewrite /t_g2r /t_g13; field. Qed.

End Timing.

(** ** The flip angle and pi *)

Section FlipAngle.

Local Open Scope R_scope.

(** Machin's series for pi/4, cut after six terms, is above 3.14159/4. *)
Lemma PI_above_decimal : 314159 / 100000 < PI.
Proof.
case: (PI_2_3_7_ineq 2) => lower _.
rewrite /sum_f_R0 /tg_alt /PI_2_3_7_tg /Ratan_seq /= in lower.
lra.
Qed.

Lemma Q2R_angle_factor : Q2R angle_factor = 1.
Proof.
have -> : Q2R angle_factor = Q2R 1 by apply: Qeq_eqR.
by rewrite /Q2R /=; field.
Qed.

Lemma Q2R_pulse_angle (s : Q) :
  Q2R (pulse_angle s) = Q2R s * (180 / (314159 / 100000)).
Proof.
have -> : Q2R (pulse_angle s) = Q2R (s * (18000000 # 314159)).
  by apply: Qeq_eqR; rewrite /pulse_angle /angle_factor; field.
by rewrite Q2R_mult {2}/Q2R /=; field.
Qed.

(** For a positive sample the angle of the sources is above the angle that
    the formula with pi gives. *)
Lemma spec_angle_below (s : Q) :
  (0 < s)%Q -> spec_angle s angle_factor < Q2R (pulse_angle s).
Proof.
move=> /Qlt_Rlt.
rewrite /spec_angle Q2R_pulse_angle Q2R_angle_factor RMicromega.Q2R_0 => s_pos.
have PI_pos := PI_RGT_0.
have PI_lb := PI_above_decimal.
rewrite Rmult_1_r; apply: Rmult_lt_compat_l => //.
rewrite /Rdiv; apply: Rmult_lt_compat_l; first lra.
apply: Rinv_lt_contravar => //.
by apply: Rmult_lt_0_compat; lra.
Qed.

End FlipAngle.

(** ** The shaped-pulse loops *)

Section ShapedPulse.

Variable G : platform.
Variable sys : spin_system G.
Variable H : gen_op G.

Notation step := (driver_step sys H t_dwell angle_factor 0%Q).

(** The loop from index [i] is the fold of the driver's step over the
    samples it reads. *)
Lemma mega_press_from_foldl (rho : seq Q) (todo i : nat) (sigma : gen_op G) :
  i + todo <= size rho ->
  mega_press_from sys rho (prop H t_dwell) i todo sigma
    = foldl step sigma (take todo (drop i rho)).
Proof.
elim: todo i sigma => [|todo IH] i sigma; first by rewrite take0.
rewrite addnS => bound.
have i_lt : i < size rho by apply: leq_trans bound; rewrite ltnS leq_addr.
by rewrite (drop_nth 0%Q i_lt) /= IH // addSn.
Qed.

Lemma mega_press_foldl (rho : seq Q) (sigma : gen_op G) :
  mega_press sys rho (Z.of_nat (size rho)) (prop H t_dwell) sigma
    = foldl step sigma rho.
Proof.
rewrite /mega_press Nat2Z.id mega_press_from_foldl ?add0n //.
by rewrite drop0 take_size.
Qed.

(** Only the samples below the pulse length are read. *)
Lemma mega_press_from_ext (rho rho' : seq Q) (ud : gen_op G) (todo i : nat)
    (sigma : gen_op G) :
  (forall k, i <= k < i + todo -> nth 0%Q rho k = nth 0%Q rho' k) ->
  mega_press_from sys rho ud i todo sigma
    = mega_press_from sys rho' ud i todo sigma.
Proof.
elim: todo i sigma => [|todo IH] i sigma //= same.
rewrite same ?leqnn ?addnS ?ltnS ?leq_addr //.
apply: IH => k /andP [ik kb].
by apply: same; rewrite (ltnW ik) addnS -addSn.
Qed.

End ShapedPulse.

(** C2, as the specification states it, fails for the sample 1.0: the
    loop of the sources rotates by [1 * angle_factor * 180 / 3.14159]
    degrees, which is above [1 * angle_factor * (180 / pi)]. *)
Lemma flip_angle_is_not_spec_angle :
  mega_press (G := symbolic) 0%Q [:: 1%Q] 1
      (Propagator (Hamiltonian 0) t_dwell) (Equilibrium 0)
    = Evolved (Pulsed (Equilibrium 0) 0 (pulse_angle 1))
        (Propagator (Hamiltonian 0) t_dwell)
  /\ Q2R (pulse_angle 1) <> spec_angle 1 angle_factor.
Proof.
split=> //.
by apply/not_eq_sym/Rlt_not_eq/spec_angle_below.
Qed.

(** C2, amended: for every waveform of N samples the loop of the sources
    processes the samples in order; for each sample [s] it computes the
    flip angle [s * angle_factor * 180 / 3.14159] (the decimal constant of
    the sources, not pi), applies the pulse at phase 0 to the density
    operator, and then applies free evolution under [H] for one dwell, the
    rotation before the evolution in each step. *)
Theorem shaped_pulse_rotate_then_evolve (G : platform) (sys : spin_system G)
    (H sigma : gen_op G) (rho : seq Q) :
  mega_press sys rho (Z.of_nat (size rho)) (prop H t_dwell) sigma
    = foldl (fun sigma1 s =>
               evolve (Ixypuls sys sigma1 0%Q
                         (s * angle_factor * 180 / 3.14159)%Q)
                      (prop H t_dwell))
        sigma rho
  /\ forall s : Q,
       mega_press sys (rcons rho s) (Z.of_nat (size (rcons rho s)))
           (prop H t_dwell) sigma
         = evolve
             (Ixypuls sys
                (mega_press sys rho (Z.of_nat (size rho)) (prop H t_dwell)
                   sigma)
                0%Q (s * angle_factor * 180 / 3.14159)%Q)
             (prop H t_dwell).
Proof.
split; first exact: mega_press_foldl.
by move=> s; rewrite !mega_press_foldl -cats1 foldl_cat.
Qed.

(** The loop of the sources is the specification's Shaped-Pulse Driver at
    phase 0 with the calibration factor and the dwell of the sources. *)
Lemma mega_press_is_driver (G : platform) (sys : spin_system G)
    (H sigma : gen_op G) (rho : seq Q) :
  mega_press sys rho (Z.of_nat (size rho)) (prop H t_dwell) sigma
    = shaped_pulse_driver sys H rho t_dwell angle_factor 0%Q sigma.
Proof. exact: mega_press_foldl. Qed.

(** C7: with an empty waveform (pulse length 0) the loop of the sources
    returns the density operator it was given, whatever the buffer holds,
    and the duration of the pulse is zero. *)
Theorem empty_waveform_is_noop (G : platform) (sys : spin_system G)
    (udelay_dwell sigma : gen_op G) :
  mega_press sys [::] 0 udelay_dwell sigma = sigma
  /\ (forall rho : seq Q, mega_press sys rho 0 udelay_dwell sigma = sigma)
  /\ (t_pulse 0 == 0)%Q.
Proof. by []. Qed.

(** ** The order of the sequence *)

Lemma sequence_is_run (G : platform) (sys : spin_system G) (rho : seq Q) :
  Iypuls_is_phase_90 G ->
  sequence sys rho (Z.of_nat (size rho))
    = run_transitions sys (mega_press_sequence rho) (sigma_eq sys).
Proof.
move=> y_pulse.
by rewrite /sequence /run_transitions /= !y_pulse !mega_press_is_driver.
Qed.

(** C3: from the equilibrium density operator, the sources apply, in this
    order, a 90 degree pulse at phase 90, free evolution for [t_12], a 180
    degree pulse at phase 90, free evolution for [t_2g1], the first
    shaped-pulse train, free evolution for [t_g13], a 180 degree pulse at
    phase 90, free evolution for [t_3g2], the second shaped-pulse train on
    the same waveform with the same calibration factor, and free evolution
    for [t_g2r]; the resulting density operator is the one handed to [FID].
    The y pulse of GAMMA is taken to be the pulse at phase 90. *)
Theorem sequence_order (G : platform) (sys : spin_system G) (offset1 : Z)
    (rho : seq Q) :
  Iypuls_is_phase_90 G ->
  sequence sys rho (Z.of_nat (size rho))
    = run_transitions sys (mega_press_sequence rho) (sigma_eq sys)
  /\ let shifted := offsetShifts sys (inject_Z offset1) in
     simulate sys offset1 rho (Z.of_nat (size rho))
       = FID (run_transitions shifted (mega_press_sequence rho)
                (sigma_eq shifted))
           (Fm shifted) (Ho shifted) 0.0002%Q 2048.
Proof.
by move=> y_pulse; rewrite /simulate !sequence_is_run.
Qed.

Lemma symbolic_Iypuls : Iypuls_is_phase_90 symbolic.
Proof. by []. Qed.

Lemma sequence_order_witness :
  sequence (G := symbolic) 0%Q [:: 1%Q; 0.5%Q] 2
    = run_transitions (G := symbolic) 0%Q
        (mega_press_sequence [:: 1%Q; 0.5%Q]) (Equilibrium 0).
Proof.
exact: (proj1 (@sequence_order symbolic 0%Q 7%Z [:: 1%Q; 0.5%Q]
                 symbolic_Iypuls)).
Defined.

(** The sequence written out on the symbolic platform, for one sample. *)
Example sequence_one_sample :
  sequence (G := symbolic) 0%Q [:: 1%Q] 1
  = let H := Hamiltonian 0 in
    let s1 := Pulsed (Equilibrium 0) 90 90 in
    let s2 := Evolved s1 (Propagator H t_12) in
    let s3 := Pulsed s2 90 180 in
    let s4 := Evolved s3 (Propagator H (t_2g1 1)) in
    let s5 := Evolved (Pulsed s4 0 (pulse_angle 1)) (Propagator H t_dwell) in
    let s6 := Evolved s5 (Propagator H (t_g13 1)) in
    let s7 := Pulsed s6 90 180 in
    let s8 := Evolved s7 (Propagator H (t_3g2 1)) in
    let s9 := Evolved (Pulsed s8 0 (pulse_angle 1)) (Propagator H t_dwell) in
    Evolved s9 (Propagator H (t_g2r 1)).
Proof. by []. Qed.

(** ** Loading the waveform *)

Section Loading.

Variable G : platform.

Local Open Scope Z_scope.

Ltac int_arith :=
  rewrite /int_of /size_t_of /PTRDIFF_MAX /sizeof_float;
  change (2 ^ 64) with 18446744073709551616;
  change (2 ^ 63) with 9223372036854775808;
  change (2 ^ 32) with 4294967296;
  change (2 ^ 31) with 2147483648;
  Z.div_mod_to_equations; lia.

Lemma int_of_low (z : Z) : z mod 2 ^ 32 < 2 ^ 31 -> int_of z = z mod 2 ^ 32.
Proof. by move=> low; move: low; int_arith. Qed.

Lemma int_of_high (z : Z) :
  2 ^ 31 <= z mod 2 ^ 32 -> int_of z = z mod 2 ^ 32 - 2 ^ 32.
Proof. by move=> high; move: high; int_arith. Qed.

(** The [rf_size] of line 36 for a file of [S] bytes: [S] itself below 2^31
    bytes, [S] reduced modulo 2^32 in general. *)
Lemma rf_size_small (S : Z) : 0 <= S < 2 ^ 31 -> int_of S = S.
Proof. by move=> range; move: range; int_arith. Qed.

(** The samples that [fread] stores for [count] items from offset 0. *)
Notation samples fid count :=
  [seq float_of_bits G (word_at fid (sizeof_float * Z.of_nat k))
  | k <- iota 0%N count].

(** What lines 35-45 compute for every file: with [r] the size of the file
    modulo 2^32, a "Memory error" when [r] is 2^31 or more, and otherwise
    the first [r / 4] floats of the file and the pulse length [r / 4]. *)
Lemma load_waveform_spec (fid : FILE) :
  let r := Z.of_N (fsize fid) mod 2 ^ 32 in
  load_waveform G fid
    = if 2 ^ 31 <=? r then None
      else Some (samples fid (Z.to_nat (r / 4)), r / 4).
Proof.
rewrite /load_waveform /fread_float /items_left /ftell /=.
set S := Z.of_N (fsize fid).
have S_pos : 0 <= S by apply: N2Z.is_nonneg.
case: Z.leb_spec => [high|low].
  rewrite int_of_high //.
  have -> // : malloc_fails (size_t_of (S mod 2 ^ 32 - 2 ^ 32)) = true.
  by rewrite /malloc_fails; apply/Z.ltb_lt; move: high S_pos; int_arith.
rewrite int_of_low //.
have -> : size_t_of (S mod 2 ^ 32) = S mod 2 ^ 32.
  by move: low S_pos; int_arith.
have -> : malloc_fails (S mod 2 ^ 32) = false.
  by rewrite /malloc_fails; apply/Z.ltb_ge; move: low S_pos; int_arith.
have -> : Z.min (S mod 2 ^ 32 / sizeof_float) ((S - 0) / sizeof_float)
          = S mod 2 ^ 32 / 4.
  by apply: Z.min_l; move: low S_pos; int_arith.
have -> : int_of (S mod 2 ^ 32 / sizeof_float) = S mod 2 ^ 32 / 4.
  by move: low S_pos; int_arith.
by [].
Qed.

(** Below 2^31 bytes: [S / 4] samples, one for each four bytes from the
    first byte of the file on, in the order of the file. *)
Lemma load_waveform_small (fid : FILE) :
  let S := Z.of_N (fsize fid) in
  S < 2 ^ 31 ->
  load_waveform G fid = Some (samples fid (Z.to_nat (S / 4)), S / 4).
Proof.
move=> S small; rewrite load_waveform_spec.
have S_pos : 0 <= S by apply: N2Z.is_nonneg.
have -> : Z.of_N (fsize fid) mod 2 ^ 32 = S.
  by rewrite -/S; move: small S_pos; int_arith.
by case: Z.leb_spec => // high; move: small high; int_arith.
Qed.

(** The pulse length is the number of samples in the buffer. *)
Lemma load_waveform_size (fid : FILE) (rho : seq Q) (pw : Z) :
  load_waveform G fid = Some (rho, pw) -> pw = Z.of_nat (size rho).
Proof.
rewrite load_waveform_spec; cbv zeta; case: Z.leb_spec => // low [<- <-].
rewrite size_map size_iota Z2Nat.id //.
have: 0 <= Z.of_N (fsize fid) by apply: N2Z.is_nonneg.
by int_arith.
Qed.

(** Files with the same bytes load the same waveform. *)
Lemma load_waveform_same_content (f g : FILE) :
  same_content f g -> load_waveform G f = load_waveform G g.
Proof.
case=> same_size same_bytes; rewrite !load_waveform_spec -same_size.
set S := Z.of_N (fsize f) in same_bytes *; cbv zeta.
case: Z.leb_spec => // low; congr (Some (_, _)).
apply/eq_in_map => k; rewrite mem_iota add0n => /andP [_ /ltP k_lt].
have S_pos : 0 <= S by apply: N2Z.is_nonneg.
have bound : 0 <= sizeof_float * Z.of_nat k /\ sizeof_float * Z.of_nat k + 3 < S.
  by move: k_lt low S_pos; int_arith.
by rewrite /word_at /byte_at !same_bytes //; lia.
Qed.

End Loading.

(** Below 2^31 bytes the pulse length is the size of the file divided by
    four, and sample [k] is the float stored at offset [4 * k]. *)
Lemma waveform_in_file_order (G : platform) (fid : FILE) :
  (Z.of_N (fsize fid) < 2 ^ 31)%Z ->
  exists rho,
    [/\ load_waveform G fid = Some (rho, (Z.of_N (fsize fid) / 4)%Z),
        Z.of_nat (size rho) = (Z.of_N (fsize fid) / 4)%Z
      & forall k, k < size rho ->
          nth 0%Q rho k = float_of_bits G (word_at fid (4 * Z.of_nat k))].
Proof.
move=> small; rewrite load_waveform_small //; eexists; split; first by [].
  rewrite size_map size_iota Z2Nat.id //.
  by apply: Z.div_pos => //; apply: N2Z.is_nonneg.
move=> k; rewrite size_map size_iota => k_lt.
by rewrite (nth_map 0) ?size_iota // nth_iota.
Qed.

(** C9 at a file of 2^32 + 8 bytes: the file holds 1073741826 floats, and
    the sources load a waveform of two samples. *)
Theorem huge_file_loads_two_samples (G : platform) :
  (Z.of_N (fsize huge_file) / 4 = 1073741826)%Z
  /\ load_waveform G huge_file
     = Some ([:: float_of_bits G 0; float_of_bits G 0], 2%Z).
Proof. by []. Qed.

(** An empty file loads as the empty waveform. *)
Example empty_file_loads (G : platform) :
  load_waveform G (file_of_bytes [::]) = Some ([::], 0%Z).
Proof. by []. Qed.

(** Ten bytes load as two samples; the two trailing bytes are not read. *)
Example two_samples_load :
  omap (fun w => (map Qred w.1, w.2)) (load_waveform symbolic two_samples)
    = Some ([:: 1%Q; (-1 # 2)%Q], 2%Z).
Proof. by vm_compute. Qed.

(** ** Runs of [main] *)

Section Runs.

Variable G : platform.

(** A run with two arguments and a waveform file below 2^31 bytes reaches
    the end of [main] and writes the signal of the simulation. *)
Lemma main_returns (a : inputs G) (fid : FILE) :
  argc a = 3%Z -> wav a = Some fid -> (Z.of_N (fsize fid) < 2 ^ 31)%Z ->
  exists rho,
    load_waveform G fid = Some (rho, Z.of_nat (size rho))
    /\ main a = Return 0 (outfile a) "test_fid"
                  (simulate (sys_file a) (offset1 a) rho
                     (Z.of_nat (size rho))).
Proof.
move=> three opened small.
have [rho [loaded size_rho _]] := waveform_in_file_order G small.
exists rho; rewrite size_rho; split=> //.
by rewrite /main three opened loaded.
Qed.

(** The exits before the simulation. *)
Lemma main_wrong_argc (a : inputs G) : argc a <> 3%Z -> main a = Exit 0.
Proof. by rewrite /main => /Z.eqb_neq ->. Qed.

Lemma main_no_file (a : inputs G) :
  argc a = 3%Z -> wav a = None -> main a = Exit 1.
Proof. by rewrite /main => -> ->. Qed.

Lemma signal_same_inputs (a b : inputs G) :
  argc a = argc b -> offset1 a = offset1 b -> sys_file a = sys_file b ->
  same_file (wav a) (wav b) ->
  signal_of (main a) = signal_of (main b).
Proof.
rewrite /main => <- <- <-; case: (negb _) => //.
case: (wav a) (wav b) => [f|] [g|] //= /(load_waveform_same_content G) <-.
by case: (load_waveform G f) => [[rho pw]|].
Qed.

End Runs.

(** ** The Signal Synthesizer *)

Section Synthesizer.

Variable G : platform.
Variables detectionOperator U : gen_op G.

Lemma size_synthesize (M : nat) (sigma : gen_op G) :
  size (synthesize sigma detectionOperator U M) = M.
Proof. by elim: M sigma => [|M IH] sigma //=; rewrite IH. Qed.

(** Sample [k] is recorded after [k] evolutions by the acquisition
    propagator. *)
Lemma synthesize_mkseq (M : nat) (sigma : gen_op G) :
  synthesize sigma detectionOperator U M
    = mkseq (fun k => trace (iter k (fun s => evolve s U) sigma) detectionOperator) M.
Proof.
elim: M sigma => [|M IH] sigma //=.
rewrite IH /mkseq /= (iotaDl 1 0 M) -map_comp; congr (_ :: _).
by apply: eq_map => k /=; rewrite -iterSr.
Qed.

End Synthesizer.

(** C4: for every sample count M the Signal Synthesizer produces exactly M
    samples; sample k is the expectation value of the detection operator
    in the terminal state evolved by k acquisition dwells, so that each
    sample is recorded before the evolution that follows it; with M = 0 the
    output is empty and with M = 1 it is the expectation value in the
    terminal state alone. *)
Theorem synthesizer_samples_then_evolves (G : platform)
    (terminalRho H detectionOperator : gen_op G) (dwell : Q) (M : nat) :
  size (signal_synthesizer terminalRho H detectionOperator dwell M) = M
  /\ signal_synthesizer terminalRho H detectionOperator dwell M
     = mkseq (fun k => trace (iter k (fun s => evolve s (prop H dwell))
                                  terminalRho)
                         detectionOperator) M
  /\ signal_synthesizer terminalRho H detectionOperator dwell M.+1
     = trace terminalRho detectionOperator
         :: signal_synthesizer (evolve terminalRho (prop H dwell)) H
              detectionOperator dwell M
  /\ signal_synthesizer terminalRho H detectionOperator dwell 0 = [::]
  /\ signal_synthesizer terminalRho H detectionOperator dwell 1
     = [:: trace terminalRho detectionOperator].
Proof.
by rewrite /signal_synthesizer size_synthesize synthesize_mkseq.
Qed.

(** ** The emitted signal *)

Lemma symbolic_FID : FID_as_specified symbolic.
Proof.
move=> sigma D H td N; rewrite /signal_synthesizer /=.
by elim: (Z.to_nat N) sigma => [|M IH] sigma //=; rewrite IH.
Qed.

Lemma size_simulate (G : platform) (sys : spin_system G) (offset1 : Z)
    (rho : seq Q) (pw : Z) :
  FID_as_specified G -> size (simulate sys offset1 rho pw) = 2048.
Proof. by move=> FID_spec; rewrite /simulate FID_spec size_synthesize. Qed.

(** C10: with GAMMA's [FID] as the specification describes it, the signal
    has 2048 samples for every spin system, offset and waveform: [main]
    passes the literals 0.0002 and 2048 to [FID], whatever it was given,
    and every run that emits a signal emits 2048 samples. *)
Theorem signal_has_2048_samples (G : platform) :
  FID_as_specified G ->
  forall (sys : spin_system G) (offset1 : Z) (rho : seq Q) (pw : Z),
    let shifted := offsetShifts sys (inject_Z offset1) in
    simulate sys offset1 rho pw
      = FID (sequence shifted rho pw) (Fm shifted) (Ho shifted) 0.0002%Q 2048
    /\ size (simulate sys offset1 rho pw) = 2048
    /\ forall a : inputs G,
         omap size (signal_of (main a))
           = omap (fun _ => 2048) (signal_of (main a)).
Proof.
move=> FID_spec sys offset1 rho pw; split=> //; split.
  exact: size_simulate.
move=> a; rewrite /main; case: (negb _) => //; case: (wav a) => [fid|] //.
case: (load_waveform G fid) => [[w n]|] //=.
by rewrite size_simulate.
Qed.

Lemma signal_has_2048_samples_witness :
  size (simulate (G := symbolic) 0%Q 7 [:: 1%Q; 0.5%Q] 2) = 2048.
Proof.
exact: (proj1 (proj2 (@signal_has_2048_samples symbolic symbolic_FID
                        0%Q 7%Z [:: 1%Q; 0.5%Q] 2%Z))).
Defined.

(** ** The Propagator Engine *)

Section EngineProperties.

Local Open Scope ring_scope.
Local Open Scope sesquilinear_scope.
Import GRing.Theory.

Variable C : numClosedFieldType.
Variable n : nat.
Implicit Types U V rho : 'M[C]_n.

Lemma adjoint_mul U V : (U *m V)^t* = V^t* *m U^t*.
Proof. by rewrite trmx_mul map_mxM. Qed.

Lemma unitaryP U : reflect (unitary U) (U \is unitarymx).
Proof. exact: unitarymxP. Qed.

(** For a square matrix, [U * U^dagger = 1] gives [U^dagger * U = 1]. *)
Lemma unitary_left U : unitary U -> U^t* *m U = 1%:M.
Proof. exact: mulmx1C. Qed.

Lemma apply_trace U rho : unitary U -> \tr (apply U rho) = \tr rho.
Proof.
by move=> /unitary_left UU; rewrite /apply mxtrace_mulC mulmxA UU mul1mx.
Qed.

Lemma apply_hermitian U rho : hermitian rho -> hermitian (apply U rho).
Proof.
rewrite /hermitian /apply => rho_h.
by rewrite !adjoint_mul trmxCK rho_h mulmxA.
Qed.

Lemma apply_identity rho : apply 1%:M rho = rho.
Proof. by rewrite /apply trmx1 map_mx1 mul1mx mulmx1. Qed.

Lemma apply_mul U V rho : apply U (apply V rho) = apply (U *m V) rho.
Proof. by rewrite /apply adjoint_mul !mulmxA. Qed.

Lemma unitary_identity : unitary (1%:M : 'M[C]_n).
Proof. by rewrite /unitary trmx1 map_mx1 mulmx1. Qed.

Lemma unitary_mul U V : unitary U -> unitary V -> unitary (U *m V).
Proof.
rewrite /unitary => UU VV.
by rewrite adjoint_mul mulmxA -[U *m V *m _]mulmxA VV mulmx1.
Qed.

Lemma unitary_perm (s : 'S_n) : unitary (perm_mx s : 'M[C]_n).
Proof.
by rewrite /unitary tr_perm_mx map_perm_mx -perm_mxM mulgV perm_mx1.
Qed.

(** The expectation value after a unitary is the expectation value of the
    observable carried back by the unitary. *)
Lemma expectationValue_apply U rho (O : 'M[C]_n) :
  expectationValue (apply U rho) O = expectationValue rho (apply (U^t*) O).
Proof.
rewrite /expectationValue /apply trmxCK.
by rewrite -!mulmxA mxtrace_mulC !mulmxA.
Qed.

End EngineProperties.

Section EngineClaims.

Local Open Scope ring_scope.
Local Open Scope sesquilinear_scope.

(** C5: for every unitary operator U and every density operator rho,
    [apply U rho] is [U * rho * U^dagger]; its trace is the trace of rho,
    and it is Hermitian when rho is. *)
Theorem apply_preserves_trace_and_hermiticity (C : numClosedFieldType)
    (n : nat) (U rho : 'M[C]_n) :
  unitary U ->
  apply U rho = U *m rho *m U^t*
  /\ \tr (apply U rho) = \tr rho
  /\ (hermitian rho -> hermitian (apply U rho)).
Proof.
move=> U_unitary; split=> //; split; first exact: apply_trace.
exact: apply_hermitian.
Qed.

Lemma apply_preserves_trace_and_hermiticity_witness :
  \tr (apply exchange projector) = \tr projector.
Proof.
exact: (proj1 (proj2 (@apply_preserves_trace_and_hermiticity algC 2
                        exchange projector (unitary_perm algC _)))).
Defined.

End EngineClaims.

(** ** Invariants of the sequence *)

Section SequenceInvariant.

Variable G : platform.
Variable sys : spin_system G.
Variable P : gen_op G -> Prop.

Hypothesis P_evolve : forall sigma H t, P sigma -> P (evolve sigma (prop H t)).
Hypothesis P_Iypuls : forall sigma beta, P sigma -> P (Iypuls sys sigma beta).
Hypothesis P_Ixypuls :
  forall sigma phi beta, P sigma -> P (Ixypuls sys sigma phi beta).

Lemma mega_press_from_invariant (rho : seq Q) (H : gen_op G) (t : Q)
    (todo i : nat) (sigma : gen_op G) :
  P sigma -> P (mega_press_from sys rho (prop H t) i todo sigma).
Proof.
elim: todo i sigma => [|todo IH] i sigma //= P_sigma.
by apply: IH; apply: P_evolve; apply: P_Ixypuls.
Qed.

(** A property of the equilibrium state that pulses and free evolution
    keep holds of the state handed to the acquisition. *)
Lemma sequence_invariant (rho : seq Q) (pw : Z) :
  P (sigma_eq sys) -> P (sequence sys rho pw).
Proof.
move=> P_eq; rewrite /sequence /mega_press.
do 2![apply: P_evolve; apply: mega_press_from_invariant;
      apply: P_evolve; apply: P_Iypuls].
by apply: P_evolve; apply: P_Iypuls.
Qed.

End SequenceInvariant.

Section MatrixSequence.

Local Open Scope ring_scope.

Variable C : numClosedFieldType.
Variable n : nat.
Variable decode : Z -> Q.
Variable system : Type.
Variable shift : system -> Q -> system.
Variables equilibrium hamiltonian detection : system -> 'M[C]_n.
Variable propagator : 'M[C]_n -> Q -> 'M[C]_n.
Variable rotation : system -> Q -> Q -> 'M[C]_n.

Notation M :=
  (matrix_platform decode shift equilibrium hamiltonian detection
     propagator rotation).

Lemma matrix_FID_as_specified : FID_as_specified M.
Proof.
move=> sigma D H td N; rewrite /signal_synthesizer /=.
by elim: (Z.to_nat N) sigma => [|k IH] sigma //=; rewrite IH.
Qed.

Lemma matrix_Iypuls : Iypuls_is_phase_90 M.
Proof. by []. Qed.

Hypothesis propagator_unitary : forall H t, unitary (propagator H t).
Hypothesis rotation_unitary :
  forall sys angle phase, unitary (rotation sys angle phase).

(** With unitary propagators and rotation operators, the state handed to
    the acquisition has the trace of the equilibrium state. *)
Lemma sequence_trace (sys : system) (rho : seq Q) (pw : Z) :
  \tr (sequence (G := M) sys rho pw) = \tr (equilibrium sys).
Proof.
apply: (@sequence_invariant M sys (fun s => \tr s = \tr (equilibrium sys)))
  => // sigma *; rewrite /= apply_trace //.
Qed.

(** It is Hermitian when the equilibrium state is; this needs no
    unitarity. *)
Lemma sequence_hermitian (sys : system) (rho : seq Q) (pw : Z) :
  hermitian (equilibrium sys) -> hermitian (sequence (G := M) sys rho pw).
Proof.
by apply: (@sequence_invariant M sys (@hermitian C n)) => // sigma *;
   apply: apply_hermitian.
Qed.

End MatrixSequence.

(** ** The whole run *)

(** A run that loads a waveform writes, under the name [test_fid], the
    signal that the Signal Synthesizer makes of the state the ten
    transitions lead to, for the spin system shifted by the offset. *)
Lemma main_signal (G : platform) (a : inputs G) (fid : FILE) (rho : seq Q)
    (pw : Z) :
  Iypuls_is_phase_90 G -> FID_as_specified G ->
  argc a = 3%Z -> wav a = Some fid -> load_waveform G fid = Some (rho, pw) ->
  let sys := offsetShifts (sys_file a) (inject_Z (offset1 a)) in
  main a
    = Return 0 (outfile a) "test_fid"
        (signal_synthesizer
           (run_transitions sys (mega_press_sequence rho) (sigma_eq sys))
           (Ho sys) (Fm sys) 0.0002%Q 2048).
Proof.
move=> y_pulse FID_spec three opened loaded sys.
rewrite /main three opened loaded /simulate FID_spec.
by rewrite (load_waveform_size loaded) sequence_is_run.
Qed.

(* ===================================================================== *)
(** * Part III: further properties of [main]                              *)
(* ===================================================================== *)

(** ** Timing, for every pulse length *)

Section TimingForEveryLength.

Local Open Scope Q_scope.

(** X1: for every pulse length the delay before, the pulse and the delay
    after fill half the echo time around the first editing pulse and half
    the echo time less [t_12] around the second, so that with [t_12] the
    whole sequence lasts the echo time. *)
Theorem echo_time_for_every_length (pw : Z) :
  t_2g1 pw + t_pulse pw + t_g13 pw == t_te / 2
  /\ t_3g2 pw + t_pulse pw + t_g2r pw == t_te / 2 - t_12
  /\ t_12 + (t_2g1 pw + t_pulse pw + t_g13 pw)
       + (t_3g2 pw + t_pulse pw + t_g2r pw) == t_te.
Proof.
split; first exact: first_half_closure.
split; first exact: second_half_closure.
by rewrite first_half_closure second_half_closure; field.
Qed.

(** X2: in exact rational arithmetic over the formulas of lines 66-69
    (the program's binary32 values agree up to rounding only), for every
    pulse length the first editing pulse has as much time before it, from
    the excitation on, as after it, up to the second refocusing pulse; the
    second editing pulse has as much time before it as after it; and the
    centres of the two pulses are half an echo time apart. *)
Theorem editing_pulses_are_centred (pw : Z) :
  t_12 + t_2g1 pw == t_g13 pw
  /\ t_3g2 pw == t_g2r pw
  /\ (t_12 + t_2g1 pw + t_pulse pw + t_g13 pw + t_3g2 pw + t_pulse pw / 2)
       - (t_12 + t_2g1 pw + t_pulse pw / 2) == t_te / 2.
Proof.
rewrite t_2g1_closed t_g13_closed t_3g2_closed t_g2r_closed.
by rewrite /t_pulse /t_12 /t_te /t_dwell; do 2![split; first by field]; field.
Qed.

(** X3: the four delays are all non-negative exactly when the pulse has at
    most 875 samples; from 876 samples on the delays [t_2g1], [t_3g2] and
    [t_g2r] are negative. *)
Theorem delays_nonnegative_up_to_875 (pw : Z) :
  ((0 <= t_2g1 pw /\ 0 <= t_g13 pw /\ 0 <= t_3g2 pw /\ 0 <= t_g2r pw)
   <-> (pw <= 875)%Z)
  /\ ((t_2g1 pw < 0 /\ t_3g2 pw < 0 /\ t_g2r pw < 0) <-> (875 < pw)%Z).
Proof.
split; first exact: intervals_nonneg_iff.
rewrite t_2g1_closed t_3g2_closed t_g2r_closed.
rewrite Zlt_Qlt; have -> : inject_Z 875 == 875 by [].
move: (inject_Z pw) => x.
by split=> [[neg _]|big]; [|repeat split]; lra.
Qed.

End TimingForEveryLength.

(** ** The flip angle, for every sample *)

Section FlipAngleForEverySample.

Local Open Scope R_scope.

(** Machin's series, cut after seven terms, is below 3.141593/4. *)
Lemma PI_below_decimal : PI < 3141593 / 1000000.
Proof.
case: (PI_2_3_7_ineq 3) => _ upper.
rewrite /sum_f_R0 /tg_alt /PI_2_3_7_tg /Ratan_seq /= in upper.
lra.
Qed.

Lemma flip_angle_excess (s : Q) :
  (0 < s)%Q ->
  Q2R (pulse_angle s) < spec_angle s angle_factor * (1 + / 1000000).
Proof.
move=> /Qlt_Rlt.
rewrite /spec_angle Q2R_pulse_angle Q2R_angle_factor RMicromega.Q2R_0 => s_pos.
have PI_pos := PI_RGT_0.
have PI_ub := PI_below_decimal.
rewrite Rmult_1_r Rmult_assoc; apply: Rmult_lt_compat_l => //.
have -> : 180 / PI * (1 + / 1000000) = (180 * (1 + / 1000000)) / PI.
  by field; lra.
have -> : 180 / (314159 / 100000) = (180 * (100000 / 314159 * PI)) / PI.
  by field; lra.
rewrite /Rdiv; apply: Rmult_lt_compat_r; first exact: Rinv_0_lt_compat.
by apply: Rmult_lt_compat_l; lra.
Qed.

(** X5: in exact arithmetic, before any rounding to binary32, for every
    positive sample the value of the flip-angle expression of lines 122
    and 134 is above the angle [s * angle_factor * (180 / pi)], by less
    than one part in a million: the constant 3.14159 is below pi by less
    than one part in a million. *)
Theorem flip_angle_within_a_millionth (s : Q) :
  (0 < s)%Q ->
  spec_angle s angle_factor < Q2R (pulse_angle s)
    < spec_angle s angle_factor * (1 + / 1000000).
Proof.
by move=> s_pos; split; [apply: spec_angle_below|apply: flip_angle_excess].
Qed.

Lemma flip_angle_within_a_millionth_witness :
  spec_angle 1 angle_factor < Q2R (pulse_angle 1)
    < spec_angle 1 angle_factor * (1 + / 1000000).
Proof. exact: (@flip_angle_within_a_millionth 1%Q (erefl _)). Defined.

End FlipAngleForEverySample.

(** ** The waveform, for every file *)

Section WaveformForEveryFile.

Variable G : platform.

Local Open Scope Z_scope.

Ltac int_arith :=
  rewrite /int_of /size_t_of /PTRDIFF_MAX /sizeof_float;
  change (2 ^ 64) with 18446744073709551616;
  change (2 ^ 63) with 9223372036854775808;
  change (2 ^ 32) with 4294967296;
  change (2 ^ 31) with 2147483648;
  change (2 ^ 29) with 536870912;
  Z.div_mod_to_equations; lia.

(** X6: what lines 35-45 do with every file.  With [r] the size of the file
    modulo 2^32: when [r] is 2^31 or more the run ends in "Memory error";
    otherwise the buffer holds the first [r / 4] floats of the file, sample
    [k] from offset [4 * k], and the pulse length is [r / 4]. *)
Theorem waveform_loading_cases (fid : FILE) :
  load_waveform G fid
    = if 2 ^ 31 <=? Z.of_N (fsize fid) mod 2 ^ 32 then None
      else Some
             ([seq float_of_bits G (word_at fid (4 * Z.of_nat k))
              | k <- iota 0%N (Z.to_nat (Z.of_N (fsize fid) mod 2 ^ 32 / 4))],
              Z.of_N (fsize fid) mod 2 ^ 32 / 4).
Proof. exact: load_waveform_spec. Qed.

(** X7: a file below 2^31 bytes is loaded as [S / 4] samples, [S] its size;
    sample [k] is the float of the four bytes from offset [4 * k] on, so no
    header is skipped and the order is that of the file. *)
Theorem small_file_loads_in_order (fid : FILE) :
  Z.of_N (fsize fid) < 2 ^ 31 ->
  exists rho,
    [/\ load_waveform G fid = Some (rho, Z.of_N (fsize fid) / 4),
        Z.of_nat (size rho) = Z.of_N (fsize fid) / 4
      & forall k, (k < size rho)%N ->
          nth 0%Q rho k = float_of_bits G (word_at fid (4 * Z.of_nat k))].
Proof. exact: waveform_in_file_order. Qed.

(** X8: whenever a waveform is loaded, the pulse length is the number of
    samples in the buffer, it is at least 0 and below 2^29, and four times
    the pulse length does not exceed the size of the file. *)
Theorem pulse_length_is_buffer_length (fid : FILE) (rho : seq Q) (pw : Z) :
  load_waveform G fid = Some (rho, pw) ->
  [/\ pw = Z.of_nat (size rho), 0 <= pw < 2 ^ 29
    & 4 * pw <= Z.of_N (fsize fid)].
Proof.
move=> loaded; have size_rho := load_waveform_size loaded.
move: loaded; rewrite load_waveform_spec; cbv zeta.
case: Z.leb_spec => // low [_ pw_def].
have S_pos : 0 <= Z.of_N (fsize fid) by apply: N2Z.is_nonneg.
by split=> //; move: low S_pos pw_def; int_arith.
Qed.

(** X9: up to three bytes after the last whole float are ignored: two files
    below 2^31 bytes with the same number of whole floats and the same
    bytes in them load the same waveform. *)
Theorem trailing_bytes_are_ignored (f g : FILE) :
  Z.of_N (fsize f) < 2 ^ 31 -> Z.of_N (fsize g) < 2 ^ 31 ->
  Z.of_N (fsize f) / 4 = Z.of_N (fsize g) / 4 ->
  (forall off, 0 <= off < 4 * (Z.of_N (fsize f) / 4) ->
     fbyte f off = fbyte g off) ->
  load_waveform G f = load_waveform G g.
Proof.
move=> f_small g_small same_count same_bytes.
rewrite !load_waveform_small // -same_count; congr (Some (_, _)).
apply/eq_in_map => k; rewrite mem_iota add0n => /andP [_ /ltP k_lt].
have S_pos : 0 <= Z.of_N (fsize f) by apply: N2Z.is_nonneg.
have bound : 0 <= sizeof_float * Z.of_nat k
             /\ sizeof_float * Z.of_nat k + 3 < 4 * (Z.of_N (fsize f) / 4).
  by move: k_lt S_pos; int_arith.
by rewrite /word_at /byte_at !same_bytes //; lia.
Qed.

(** X10: the loop of lines 48-49 reads [rho[0]] to [rho[9]] whatever the
    pulse length is: it stays inside the block of [rf_size] bytes exactly
    when the size of the file modulo 2^32 is 40 or more. *)
Theorem print_loop_in_buffer_from_40_bytes (fid : FILE) :
  head_reads_in_buffer fid = (40 <=? Z.of_N (fsize fid) mod 2 ^ 32).
Proof.
rewrite /head_reads_in_buffer /rf_size_of /ftell /=.
set S := Z.of_N (fsize fid).
have S_pos : 0 <= S by apply: N2Z.is_nonneg.
set b := size_t_of (int_of S).
have b_40 : (40 <= b) <-> (40 <= S mod 2 ^ 32).
  by rewrite /b; move: S_pos; int_arith.
rewrite /in_buffer /sizeof_float /=.
case: (Z.leb_spec 40 (S mod 2 ^ 32)) => [/b_40 big|small].
  have inside k : k <= 40 -> (k <=? b) = true.
    by move=> k_le; apply/Z.leb_le; lia.
  by rewrite !inside.
have -> : (40 <=? b) = false.
  by apply/Z.leb_gt; move: small; rewrite -!Z.nle_gt -b_40.
by rewrite !andbF.
Qed.

End WaveformForEveryFile.

Lemma small_file_loads_in_order_witness :
  exists rho,
    [/\ load_waveform symbolic two_samples
          = Some (rho, (Z.of_N (fsize two_samples) / 4)%Z),
        Z.of_nat (size rho) = (Z.of_N (fsize two_samples) / 4)%Z
      & forall k, k < size rho ->
          nth 0%Q rho k
            = float_of_bits symbolic (word_at two_samples (4 * Z.of_nat k))].
Proof. exact: (@small_file_loads_in_order symbolic two_samples (erefl _)). Defined.

Lemma pulse_length_is_buffer_length_witness :
  let rho := [seq float_of_bits symbolic (word_at two_samples (4 * Z.of_nat k))
             | k <- iota 0 2] in
  [/\ 2%Z = Z.of_nat (size rho), (0 <= 2 < 2 ^ 29)%Z
    & (4 * 2 <= Z.of_N (fsize two_samples))%Z].
Proof.
exact: (@pulse_length_is_buffer_length symbolic two_samples _ 2%Z (erefl _)).
Defined.

Lemma trailing_bytes_are_ignored_witness :
  load_waveform symbolic two_samples = load_waveform symbolic two_samples_only.
Proof.
apply: (@trailing_bytes_are_ignored symbolic two_samples two_samples_only
          (erefl _) (erefl _) (erefl _)).
move=> off range.
have cases : (off = 0 \/ off = 1 \/ off = 2 \/ off = 3 \/ off = 4
              \/ off = 5 \/ off = 6 \/ off = 7)%Z.
  by move: range; change (4 * (Z.of_N (fsize two_samples) / 4))%Z with 8%Z; lia.
by move: cases; do 7![case=> [->|] //]; move=> ->.
Defined.

(** The print loop reads outside the block for the four-sample waveform
    of a sixteen-byte file, and inside it for a waveform of ten samples. *)
Example print_loop_four_samples :
  head_reads_in_buffer four_zero_samples = false
  /\ head_reads_in_buffer (file_of_bytes (nseq 40 x00)) = true.
Proof. by []. Qed.

Section PulseLoopsForEveryFile.

Variable G : platform.

Local Open Scope Z_scope.

(** X11: whenever a waveform is loaded, the loops of lines 119-126 and
    131-138 read [rho[i]] inside the block of [rf_size] bytes for every
    index they reach. *)
Theorem pulse_loops_stay_in_buffer (fid : FILE) (rho : seq Q) (pw : Z) :
  load_waveform G fid = Some (rho, pw) -> pulse_reads_in_buffer fid pw.
Proof.
rewrite load_waveform_spec; cbv zeta.
case: Z.leb_spec => // low [_ <-].
rewrite /pulse_reads_in_buffer /loop_reads /rf_size_of /ftell /= all_map.
apply/allP => k; rewrite mem_iota add0n => /andP [_ /ltP k_lt] /=.
set S := Z.of_N (fsize fid) in low k_lt *.
have S_pos : 0 <= S by apply: N2Z.is_nonneg.
rewrite /in_buffer; apply/andP; split; first by apply/Z.leb_le; lia.
apply/Z.leb_le; move: low k_lt S_pos.
rewrite /int_of /size_t_of /sizeof_float.
change (2 ^ 64) with 18446744073709551616.
change (2 ^ 32) with 4294967296.
change (2 ^ 31) with 2147483648.
by Z.div_mod_to_equations; lia.
Qed.


End PulseLoopsForEveryFile.

Lemma pulse_loops_stay_in_buffer_witness :
  pulse_reads_in_buffer two_samples 2.
Proof.
exact: (@pulse_loops_stay_in_buffer symbolic two_samples _ 2%Z (erefl _)).
Defined.

(** ** The loops and the sequence, for every waveform *)

Section LoopsForEveryWaveform.

Variable G : platform.
Variable sys : spin_system G.

(** The loop over [n + m] indices is the loop over the first [n] followed
    by the loop over the next [m]. *)
Lemma mega_press_from_add (rho : seq Q) (ud : gen_op G) (n m i : nat)
    (sigma : gen_op G) :
  mega_press_from sys rho ud i (n + m) sigma
    = mega_press_from sys rho ud (i + n) m
        (mega_press_from sys rho ud i n sigma).
Proof.
elim: n i sigma => [|n IH] i sigma; first by rewrite add0n addn0.
by rewrite addSn /= IH addSnnS.
Qed.

(** Reading [r1 ++ r2] from the end of [r1] on is reading [r2]. *)
Lemma mega_press_from_shift (r1 r2 : seq Q) (ud : gen_op G) (todo i : nat)
    (sigma : gen_op G) :
  mega_press_from sys (r1 ++ r2) ud (size r1 + i) todo sigma
    = mega_press_from sys r2 ud i todo sigma.
Proof.
elim: todo i sigma => [|todo IH] i sigma //=.
by rewrite nth_cat ltnNge leq_addr /= addKn -addnS IH.
Qed.

(** X13: the loop over a waveform made of two parts is the loop over the
    first part followed by the loop over the second part, on the state the
    first loop returns. *)
Theorem mega_press_cat (r1 r2 : seq Q) (ud sigma : gen_op G) :
  mega_press sys (r1 ++ r2) (Z.of_nat (size (r1 ++ r2))) ud sigma
    = mega_press sys r2 (Z.of_nat (size r2)) ud
        (mega_press sys r1 (Z.of_nat (size r1)) ud sigma).
Proof.
rewrite /mega_press !Nat2Z.id size_cat mega_press_from_add add0n.
rewrite -[size r1 in X in mega_press_from _ _ _ X]addn0 mega_press_from_shift.
congr (mega_press_from _ _ _ _ _ _).
apply: mega_press_from_ext => k; rewrite add0n => /andP [_ k_lt].
by rewrite nth_cat k_lt.
Qed.

Variable P : gen_op G -> Prop.

Hypothesis P_evolve :
  forall sigma t, P sigma -> P (evolve sigma (prop (Ho sys) t)).
Hypothesis P_Iypuls : forall sigma beta, P sigma -> P (Iypuls sys sigma beta).
Hypothesis P_Ixypuls :
  forall sigma phi beta, P sigma -> P (Ixypuls sys sigma phi beta).

Lemma mega_press_from_preserves (rho : seq Q) (t : Q) (todo i : nat)
    (sigma : gen_op G) :
  P sigma -> P (mega_press_from sys rho (prop (Ho sys) t) i todo sigma).
Proof.
elim: todo i sigma => [|todo IH] i sigma //= P_sigma.
by apply: IH; apply: P_evolve; apply: P_Ixypuls.
Qed.

Lemma sequence_preserves (rho : seq Q) (pw : Z) :
  P (sigma_eq sys) -> P (sequence sys rho pw).
Proof.
move=> P_eq; rewrite /sequence /mega_press.
do 2![apply: P_evolve; apply: mega_press_from_preserves;
      apply: P_evolve; apply: P_Iypuls].
by apply: P_evolve; apply: P_Iypuls.
Qed.

End LoopsForEveryWaveform.

(** X14: the sequence changes the state only by pulses on the spin system
    and by free evolution under propagators of its Hamiltonian: a property
    of the equilibrium state that these three steps keep holds of the
    state handed to the acquisition, for every waveform and pulse
    length. *)
Theorem sequence_keeps_what_its_steps_keep (G : platform)
    (sys : spin_system G) (P : gen_op G -> Prop) (rho : seq Q) (pw : Z) :
  (forall sigma t, P sigma -> P (evolve sigma (prop (Ho sys) t))) ->
  (forall sigma beta, P sigma -> P (Iypuls sys sigma beta)) ->
  (forall sigma phi beta, P sigma -> P (Ixypuls sys sigma phi beta)) ->
  P (sigma_eq sys) -> P (sequence sys rho pw).
Proof.
move=> keeps_evolve keeps_Iypuls keeps_Ixypuls.
exact: (sequence_preserves keeps_evolve keeps_Iypuls keeps_Ixypuls).
Qed.

Lemma sequence_keeps_what_its_steps_keep_witness :
  state_of 0%Q (sequence (G := symbolic) 0%Q [:: 1%Q; 0.5%Q] 2).
Proof.
apply: (@sequence_keeps_what_its_steps_keep symbolic 0%Q (state_of 0%Q)
          [:: 1%Q; 0.5%Q] 2%Z) => //.
Defined.

Section SymbolicSequence.

Variable sys : Q.
Variable rho : seq Q.

Notation mega_press_from := (mega_press_from (G := symbolic) sys rho).



Lemma elapsed_mega_press_from (H : sym_op) (t : Q) (sigma : sym_op)
    (todo i : nat) :
  (elapsed (mega_press_from (Propagator H t) i todo sigma)
     == elapsed sigma + inject_Z (Z.of_nat todo) * t)%Q.
Proof.
elim: todo i sigma => [|todo IH] i sigma; first by rewrite /=; field.
rewrite Nat2Z.inj_succ -Z.add_1_r inject_Z_plus.
by rewrite [mega_press_from _ _ _ _]/= IH /=; field.
Qed.


(** X16: in exact rational arithmetic over the formulas of lines 63-69
    (the program's binary32 durations agree up to rounding only), for a
    pulse of [n] samples the durations of all the free evolutions of the
    sequence, those of the two loops included, add up to the echo time. *)
Theorem sequence_lasts_the_echo_time (n : nat) :
  (elapsed (sequence (G := symbolic) sys rho (Z.of_nat n)) == t_te)%Q.
Proof.
rewrite /sequence /mega_press Nat2Z.id /=.
rewrite elapsed_mega_press_from /= elapsed_mega_press_from /=.
by rewrite /t_g2r /t_g13; field.
Qed.

End SymbolicSequence.

(** ** Timing and the size of the file *)

(** X17: for a waveform file below 2^31 bytes that is loaded, the four
    delays of the sequence are all non-negative exactly when the file has
    fewer than 3504 bytes, that is at most 875 samples. *)
Theorem delays_nonnegative_below_3504_bytes (G : platform) (fid : FILE)
    (rho : seq Q) (pw : Z) :
  load_waveform G fid = Some (rho, pw) ->
  (Z.of_N (fsize fid) < 2 ^ 31)%Z ->
  (0 <= t_2g1 pw /\ 0 <= t_g13 pw /\ 0 <= t_3g2 pw /\ 0 <= t_g2r pw)%Q
  <-> (Z.of_N (fsize fid) < 3504)%Z.
Proof.
move=> loaded small; rewrite intervals_nonneg_iff.
move: loaded; rewrite load_waveform_small //; case=> _ <-.
have: (0 <= Z.of_N (fsize fid))%Z by apply: N2Z.is_nonneg.
by move: (Z.of_N _) => S S_pos; split; move: S_pos; Z.div_mod_to_equations; lia.
Qed.

Lemma delays_nonnegative_below_3504_bytes_witness :
  (0 <= t_2g1 2 /\ 0 <= t_g13 2 /\ 0 <= t_3g2 2 /\ 0 <= t_g2r 2)%Q
  <-> (Z.of_N (fsize two_samples) < 3504)%Z.
Proof.
exact: (@delays_nonnegative_below_3504_bytes symbolic two_samples _ 2%Z
          (erefl _) (erefl _)).
Defined.
